(** * Signer: OAuth 1.0 single-legged request signing for LTI

    A shallow embedding of [signer.go] and [util.RandomString].

    Representation choices.
    - A Go [string] is a sequence of bytes: it is a [string] here, whose
      characters are the 8-bit [ascii] values; [[]byte(s)] is the list of
      their values as [Z].
    - A Go [map[string]string] is a [gmap string string]; reading a missing
      key yields the empty string ([mapGet]).  [url.Values] is a
      [gmap string (list string)].
    - [range] over a map visits the keys in an unspecified order: every
      loop whose result could depend on it takes the visiting order as an
      explicit list, and the order-free wrapper uses [map_to_list].
    - The entropy source, the clock and the URL parser of [net/http] are
      read from an environment record [Env].
    - [crypto/sha1], [crypto/hmac] and [encoding/base64] are the standard
      algorithms (FIPS 180, RFC 2104, RFC 4648), written out so that
      signatures can be evaluated.  Calls to the logger have no effect on
      any returned value and are left out. *)

From Stdlib Require Import ZArith NArith Ascii String List Lia DecimalString.
From stdpp Require Import base option list gmap strings sorting fin_maps.

Local Open Scope string_scope.

(** ** Bytes *)

Definition byteVal (c : ascii) : Z := Z.of_N (N_of_ascii c).
Definition byteChr (z : Z) : ascii := ascii_of_N (Z.to_N (z mod 256)).

(** [[]byte(s)] and [string(b)]. *)
Definition bytesOf (s : string) : list Z := map byteVal (list_ascii_of_string s).
Definition stringOf (b : list Z) : string := string_of_list_ascii (map byteChr b).

(** ** encoding/base64, [StdEncoding.EncodeToString] *)
Module Base64.
Local Open Scope Z_scope.

Definition encodeStd : string :=
  "ABCDEFGHIJKLMNOPQRSTUVWXYZabcdefghijklmnopqrstuvwxyz0123456789+/".

Definition padChar : ascii := "="%char.

Definition digit (v : Z) : ascii :=
  match String.get (Z.to_nat (Z.land v 63)) encodeStd with
  | Some c => c
  | None => padChar
  end.

Fixpoint EncodeToString (src : list Z) : string :=
  match src with
  | [] => EmptyString
  | [a] =>
      let val := Z.shiftl a 16 in
      String (digit (Z.shiftr val 18)) (String (digit (Z.shiftr val 12))
        (String padChar (String padChar EmptyString)))
  | [a; b] =>
      let val := Z.lor (Z.shiftl a 16) (Z.shiftl b 8) in
      String (digit (Z.shiftr val 18)) (String (digit (Z.shiftr val 12))
        (String (digit (Z.shiftr val 6)) (String padChar EmptyString)))
  | a :: b :: c :: rest =>
      let val := Z.lor (Z.lor (Z.shiftl a 16) (Z.shiftl b 8)) c in
      String (digit (Z.shiftr val 18)) (String (digit (Z.shiftr val 12))
        (String (digit (Z.shiftr val 6)) (String (digit val)
          (EncodeToString rest))))
  end.

End Base64.

(** ** crypto/sha1 *)
Module SHA1.
Local Open Scope list_scope.
Local Open Scope Z_scope.

Definition Size : nat := 20.
Definition BlockSize : nat := 64.

Definition u32 (x : Z) : Z := x mod 4294967296.
Definition add32 (x y : Z) : Z := u32 (x + y).
Definition not32 (x : Z) : Z := 4294967295 - x.
Definition RotateLeft32 (x : Z) (k : Z) : Z :=
  u32 (Z.lor (Z.shiftl x k) (Z.shiftr x (32 - k))).

(** Big-endian encodings of a 32-bit and of a 64-bit word. *)
Definition be32 (x : Z) : list Z :=
  [Z.shiftr x 24 mod 256; Z.shiftr x 16 mod 256; Z.shiftr x 8 mod 256; x mod 256].
Definition be64 (x : Z) : list Z :=
  be32 (Z.shiftr x 32 mod 4294967296) ++ be32 (x mod 4294967296).

(** The words of a block: four bytes each, most significant first. *)
Fixpoint words (p : list Z) : list Z :=
  match p with
  | a :: b :: c :: d :: rest =>
      Z.lor (Z.lor (Z.lor (Z.shiftl a 24) (Z.shiftl b 16)) (Z.shiftl c 8)) d
        :: words rest
  | _ => []
  end.

(** The message schedule, most recent word first: word [i] is the rotation
    of [w(i-3) xor w(i-8) xor w(i-14) xor w(i-16)]. *)
Fixpoint extend (n : nat) (rw : list Z) : list Z :=
  match n with
  | O => rw
  | S n' =>
      let tmp := Z.lxor (Z.lxor (Z.lxor (nth 2 rw 0) (nth 7 rw 0)) (nth 13 rw 0))
                        (nth 15 rw 0) in
      extend n' (RotateLeft32 tmp 1 :: rw)
  end.

Definition schedule (p : list Z) : list Z := rev (extend 64 (rev (words p))).

Record digest := Digest { h0 : Z; h1 : Z; h2 : Z; h3 : Z; h4 : Z }.

Definition init : digest :=
  Digest 1732584193 4023233417 2562383102 271733878 3285377520.

Definition K0 : Z := 1518500249.
Definition K1 : Z := 1859775393.
Definition K2 : Z := 2400959708.
Definition K3 : Z := 3395469782.

Definition roundF (i : nat) (b c d : Z) : Z :=
  if (i <? 20)%nat then Z.lor (Z.land b c) (Z.land (not32 b) d)
  else if (i <? 40)%nat then Z.lxor (Z.lxor b c) d
  else if (i <? 60)%nat then Z.lor (Z.land (Z.lor b c) d) (Z.land b c)
  else Z.lxor (Z.lxor b c) d.

Definition roundK (i : nat) : Z :=
  if (i <? 20)%nat then K0 else if (i <? 40)%nat then K1
  else if (i <? 60)%nat then K2 else K3.

Fixpoint rounds (i : nat) (ws : list Z) (v : digest) : digest :=
  match ws with
  | [] => v
  | w :: ws' =>
      let '(Digest a b c d e) := v in
      let t := add32 (add32 (add32 (add32 (RotateLeft32 a 5) (roundF i b c d)) e) w)
                     (roundK i) in
      rounds (S i) ws' (Digest t a (RotateLeft32 b 30) c d)
  end.

Definition block1 (dig : digest) (p : list Z) : digest :=
  let v := rounds 0 (schedule p) dig in
  Digest (add32 (h0 dig) (h0 v)) (add32 (h1 dig) (h1 v)) (add32 (h2 dig) (h2 v))
         (add32 (h3 dig) (h3 v)) (add32 (h4 dig) (h4 v)).

(** [for len(p) >= chunk { ...; p = p[chunk:] }] *)
Fixpoint block (n : nat) (dig : digest) (p : list Z) : digest :=
  match n with
  | O => dig
  | S n' => block n' (block1 dig (take 64 p)) (drop 64 p)
  end.

(** The padding written by [checkSum]: 0x80, zeros up to 56 modulo 64, and
    the length in bits as a 64-bit big-endian word. *)
Definition padding (len : Z) : list Z :=
  let t := if len mod 64 <? 56 then 56 - len mod 64 else 64 + 56 - len mod 64 in
  128 :: repeat 0 (Z.to_nat (t - 1)) ++ be64 (Z.shiftl len 3 mod 18446744073709551616).

Definition Sum (data : list Z) : list Z :=
  let p := data ++ padding (Z.of_nat (List.length data)) in
  let d := block (List.length p / 64)%nat init p in
  be32 (h0 d) ++ be32 (h1 d) ++ be32 (h2 d) ++ be32 (h3 d) ++ be32 (h4 d).

End SHA1.

(** ** crypto/hmac over SHA-1 *)
Module HMAC.
Local Open Scope list_scope.
Local Open Scope Z_scope.

(** [copy(pad, key)] into a zeroed block, then xor with the pad byte. *)
Definition pad (x : Z) (key : list Z) : list Z :=
  map (fun k => Z.lxor k x) (take SHA1.BlockSize (key ++ repeat 0 SHA1.BlockSize)).

Definition Sum (key msg : list Z) : list Z :=
  let key := if (SHA1.BlockSize <? List.length key)%nat then SHA1.Sum key else key in
  SHA1.Sum (pad 92 key ++ SHA1.Sum (pad 54 key ++ msg)).

End HMAC.

(** ** package util *)

(** Go's [error] values that the package returns. *)
Inductive error :=
| ErrNoForm                 (* errors.New("No form provided") *)
| ErrRand (msg : string)    (* the error of crypto/rand.Read *)
| ErrRequest (msg : string) (* the error of http.NewRequest *).

Global Instance error_eq_dec : EqDecision error.
Proof. solve_decision. Defined.

(** What the package reads from outside: the entropy source
    ([rand.Read] on a buffer of [n] bytes fills it, or fails with a
    message), the clock ([time.Now().Unix()]) and the validation of a
    method and a URL by [http.NewRequest] ([None] when the request can be
    built, the message of the error otherwise). *)
Record Env := {
  randRead : nat -> list Z + string;
  nowUnix : Z;
  newRequestErr : string -> string -> option string
}.

(** [RandomString] generates a random string. *)
Definition RandomString (env : Env) (s : nat) : string * option error :=
  match randRead env s with
  | inr msg => (EmptyString, Some (ErrRand msg))
  | inl b => (Base64.EncodeToString b, None)
  end.

(** ** package signer *)

(** [m[k]] on a [map[string]string]: the zero value when [k] is missing. *)
Definition mapGet (m : gmap string string) (k : string) : string :=
  default EmptyString (m !! k).

(** [url.Values] with its [Get] and [Add]. *)
Definition Get (v : gmap string (list string)) (key : string) : string :=
  match v !! key with
  | Some (x :: _) => x
  | _ => EmptyString
  end.

Definition Add (v : gmap string (list string)) (key value : string)
  : gmap string (list string) :=
  <[key := (default [] (v !! key) ++ [value])%list]> v.

(** The keys of a map in the order [map_to_list] visits them. *)
Definition rangeKeys {A} (m : gmap string A) : list string := (map_to_list m).*1.

Definition isEscapable (b : ascii) : bool :=
  let b := byteVal b in
  negb ((byteVal "A" <=? b)%Z && (b <=? byteVal "Z")%Z
        || (byteVal "a" <=? b)%Z && (b <=? byteVal "z")%Z
        || (byteVal "0" <=? b)%Z && (b <=? byteVal "9")%Z
        || (b =? byteVal "-")%Z || (b =? byteVal ".")%Z
        || (b =? byteVal "_")%Z || (b =? byteVal "~")%Z).

Definition hexDigits : string := "0123456789ABCDEF".

(** ["0123456789ABCDEF"[i]]; the index is below 16 at both uses. *)
Definition hexAt (i : Z) : ascii :=
  match String.get (Z.to_nat i) hexDigits with
  | Some c => c
  | None => zero
  end.

(** The loop of [escape]: [t] is the output so far, [s] the bytes left. *)
Fixpoint escapeLoop (s : string) (t : string) : string :=
  match s with
  | EmptyString => t
  | String c s' =>
      if isEscapable c then
        escapeLoop s'
          (t ++ String "%" (String (hexAt (Z.shiftr (byteVal c) 4))
                  (String (hexAt (Z.land (byteVal c) 15)) EmptyString)))
      else escapeLoop s' (t ++ String c EmptyString)
  end.

Definition escape (s : string) : string := escapeLoop s EmptyString.

(** [sort.Strings]: ascending in the byte-wise order of Go's [<] on strings. *)
Definition sortStrings (keys : list string) : list string :=
  merge_sort String.le keys.

(** [sortKeys] when [range] visits the keys of the map in the order [order]. *)
Definition sortKeysIn (order : list string) : list string :=
  sortStrings (fold_left (fun keys k => (keys ++ [k])%list) order []).

Definition sortKeys (params : gmap string string) : list string :=
  sortKeysIn (rangeKeys params).

(** The loop of [escapeParams] from index [i] on. *)
Fixpoint escapeParamsLoop (params : gmap string string) (i : nat)
    (keys : list string) (paramString : string) : string :=
  match keys with
  | [] => paramString
  | key :: keys' =>
      let paramString := if (0 <? i)%nat then paramString ++ "&" else paramString in
      escapeParamsLoop params (S i) keys'
        (paramString ++ (escape key ++ "=" ++ escape (mapGet params key)))
  end.

Definition escapeParamsIn (order : list string) (params : gmap string string)
  : string :=
  escapeParamsLoop params 0 (sortKeysIn order) EmptyString.

Definition escapeParams (params : gmap string string) : string :=
  escapeParamsIn (rangeKeys params) params.

Record Signer := {
  Method : string;
  URL : string;
  Key : string;
  Secret : string;
  Body : string;
  Form : gmap string string
}.

Definition NewSigner (method url key secret body : string)
    (form : gmap string string) : Signer :=
  {| Method := method; URL := url; Body := body; Form := form;
     Key := key; Secret := secret |}.

Definition createBaseString (s : Signer) (params : gmap string string) : string :=
  let baseString := Method s ++ "&" ++ escape (URL s) ++ "&" in
  baseString ++ escape (escapeParams params).

Definition signRequest (s : Signer) (params : gmap string string) : string :=
  let baseString := createBaseString s params in
  let secret := Secret s ++ "&" in
  Base64.EncodeToString (HMAC.Sum (bytesOf secret) (bytesOf baseString)).

Definition bodyHash (s : Signer) : string :=
  Base64.EncodeToString (SHA1.Sum (bytesOf (Body s))).

(** [strconv.FormatInt(t, 10)] *)
Definition FormatInt10 (t : Z) : string := NilZero.string_of_int (Z.to_int t).

(** The map is updated in place: the result is the map after the call. *)
Definition addDefaultOAuthParams (env : Env) (s : Signer)
    (params : gmap string string) : gmap string string * option error :=
  match RandomString env 15 with
  | (_, Some err) => (params, Some err)
  | (n, None) =>
      let params := <["oauth_version" := "1.0"]> params in
      let params := <["oauth_nonce" := n]> params in
      let params := <["oauth_timestamp" := FormatInt10 (nowUnix env)]> params in
      let params := <["oauth_consumer_key" := Key s]> params in
      let params := <["oauth_signature_method" := "HMAC-SHA1"]> params in
      (params, None)
  end.

Definition dquote : string := String (ascii_of_nat 34) EmptyString.

(** [BuildAuthHeader]; [order] is the order in which the final [range]
    visits the keys of [params].  The result of [addDefaultOAuthParams] is
    dropped, as in the source. *)
Definition BuildAuthHeader (env : Env)
    (order : gmap string string -> list string) (s : Signer)
  : string * option error :=
  let params : gmap string string := ∅ in
  let params := fst (addDefaultOAuthParams env s params) in
  let params := <["oauth_body_hash" := bodyHash s]> params in
  let params := <["oauth_signature" := signRequest s params]> params in
  let authHeader := "OAuth realm=" ++ dquote ++ dquote in
  let authHeader :=
    fold_left (fun authHeader k =>
                 authHeader ++ ("," ++ escape k ++ "=" ++ dquote
                                ++ escape (mapGet params k) ++ dquote))
              (order params) authHeader in
  (authHeader, None).

(** [BuildAuthForm]; [s.Form] is shared with the caller and updated in
    place, so the map after the call is part of the result. *)
Definition BuildAuthForm (env : Env) (s : Signer)
  : gmap string string * (string * option error) :=
  if (size (Form s) <? 1)%nat then (Form s, (EmptyString, Some ErrNoForm))
  else
    match addDefaultOAuthParams env s (Form s) with
    | (form, Some err) => (form, (EmptyString, Some err))
    | (form, None) =>
        let form := <["oauth_signature" := signRequest s form]> form in
        (form, (escapeParams form, None))
    end.

Record Request := {
  reqMethod : string;
  reqURL : string;
  reqBody : string;
  reqHeader : list (string * string)
}.

(** [SignedFormRequest]; the first component is [params] after the call. *)
Definition SignedFormRequest (env : Env) (url key secret : string)
    (params : gmap string string)
  : gmap string string * (option Request * option error) :=
  let s := NewSigner "POST" url key secret EmptyString params in
  match BuildAuthForm env s with
  | (params, (_, Some err)) => (params, (None, Some err))
  | (params, (form, None)) =>
      match newRequestErr env "POST" url with
      | Some msg => (params, (None, Some (ErrRequest msg)))
      | None =>
          (params,
           (Some {| reqMethod := "POST"; reqURL := url; reqBody := form;
                    reqHeader :=
                      [("Content-Type", "application/x-www-form-urlencoded")] |},
            None))
      end
  end.

(** The copy loop of [ValidateSignature]: [params[k] = form.Get(k)]. *)
Definition formParams (form : gmap string (list string)) : gmap string string :=
  map_fold (fun k _ params => <[k := Get form k]> params) ∅ form.

Definition ValidateSignature (url : string) (form : gmap string (list string))
    (secret : string) : bool :=
  let s := {| Method := EmptyString; URL := url; Key := EmptyString;
              Secret := secret; Body := EmptyString; Form := ∅ |} in
  let params := formParams form in
  let in_ := mapGet params "oauth_signature" in
  let params := delete "oauth_signature" params in
  let gen := signRequest s params in
  if bool_decide (in_ ≠ gen) then false else true.

(** A form holding each parameter once, built with [Add] as the package's
    test of [ValidateSignature] builds it. *)
Definition valuesOf (params : gmap string string) : gmap string (list string) :=
  map_fold (fun k v form => Add form k v) ∅ params.

(** What a call does: it returns, or it panics ([request.Header] on a nil
    [*http.Request]). *)
Inductive outcome (A : Type) : Type :=
| Returned (a : A)
| Panicked.
Global Arguments Returned {A} a.
Global Arguments Panicked {A}.

(** [SignedBodyRequest]; the error of [http.NewRequest] is dropped, and
    [request] is then nil.  [order] is the visiting order of the [range] in
    [BuildAuthHeader]. *)
Definition SignedBodyRequest (env : Env)
    (order : gmap string string -> list string)
    (method url key secret body : string)
  : outcome (option Request * option error) :=
  let method := if decide (method = EmptyString) then "POST" else method in
  let request :=
    match newRequestErr env method url with
    | Some _ => None
    | None => Some {| reqMethod := method; reqURL := url; reqBody := body;
                      reqHeader := [] |}
    end in
  let s := NewSigner method url key secret body ∅ in
  match BuildAuthHeader env order s with
  | (_, Some err) => Returned (None, Some err)
  | (h, None) =>
      match request with
      | None => Panicked
      | Some r =>
          Returned
            (Some {| reqMethod := reqMethod r; reqURL := reqURL r;
                     reqBody := reqBody r;
                     reqHeader := (reqHeader r ++ [("Authorization", h)])%list |},
             None)
      end
  end.

(** ** The specification's wording, for comparison with the code *)

(** The unreserved bytes, listed. *)
Definition unreservedBytes : string :=
  "ABCDEFGHIJKLMNOPQRSTUVWXYZabcdefghijklmnopqrstuvwxyz0123456789-._~".

Definition unreserved (c : ascii) : bool :=
  bool_decide (c ∈ list_ascii_of_string unreservedBytes).

Fixpoint allUnreserved (s : string) : bool :=
  match s with
  | EmptyString => true
  | String c s' => unreserved c && allUnreserved s'
  end.

(** The uppercase hexadecimal digit of a value below 16. *)
Definition upperHex (d : Z) : ascii :=
  if (d <? 10)%Z then byteChr (byteVal "0" + d) else byteChr (byteVal "A" + (d - 10)).

(** One output byte for an unreserved byte, one triplet for any other. *)
Definition encodeByte (c : ascii) : string :=
  if unreserved c then String c EmptyString
  else String "%" (String (upperHex (byteVal c / 16))
                     (String (upperHex (byteVal c mod 16)) EmptyString)).

Fixpoint encode (s : string) : string :=
  match s with
  | EmptyString => EmptyString
  | String c s' => encodeByte c ++ encode s'
  end.

(** Byte-wise lexicographic order: the first differing byte decides, and a
    proper prefix comes first. *)
Fixpoint lexLe (s t : string) : bool :=
  match s, t with
  | EmptyString, _ => true
  | String _ _, EmptyString => false
  | String a s', String b t' =>
      if (byteVal a <? byteVal b)%Z then true
      else if (byteVal b <? byteVal a)%Z then false
      else lexLe s' t'
  end.

(** Pairs [key=value] joined with [&]. *)
Definition pairOf (params : gmap string string) (key : string) : string :=
  encode key ++ "=" ++ encode (mapGet params key).

Definition canonicalize (keys : list string) (params : gmap string string)
  : string :=
  String.concat "&" (map (pairOf params) keys).

(** ** Devices of the proofs *)

(** The value of a hexadecimal digit, and a decoder for the output of
    [escape]: it shows that escaping loses nothing. *)
Definition unhex (c : ascii) : Z :=
  if (byteVal c <? byteVal "A")%Z then byteVal c - byteVal "0"
  else byteVal c - byteVal "A" + 10.

Definition isPercent (c : ascii) : bool := Ascii.eqb c "%".

Fixpoint unescape (s : string) : string :=
  match s with
  | EmptyString => EmptyString
  | String c rest =>
      match isPercent c, rest with
      | true, String h (String l rest') =>
          String (byteChr (16 * unhex h + unhex l)) (unescape rest')
      | _, _ => String c (unescape rest)
      end
  end.

(** The number of bytes of [s] that [escape] rewrites. *)
Definition escapableCount (s : string) : nat :=
  List.length (filter (fun c => isEscapable c = true) (list_ascii_of_string s)).

(** The first value of a key of [url.Values], empty when it has none. *)
Definition firstValue (vs : list string) : string := default EmptyString (head vs).

(** The keys that [addDefaultOAuthParams] writes. *)
Definition defaultKeys : list string :=
  ["oauth_version"; "oauth_nonce"; "oauth_timestamp"; "oauth_consumer_key";
   "oauth_signature_method"].

(** A segment of the authorization header, and strings put end to end. *)
Definition headerSegment (params : gmap string string) (k : string) : string :=
  "," ++ escape k ++ "=" ++ dquote ++ escape (mapGet params k) ++ dquote.

Definition joinAll (l : list string) : string := foldr String.append EmptyString l.

(** ** Test data of the package *)

Definition specParams : gmap string string :=
  <["oauth_version" := "1.0"]> (<["oauth_nonce" := "random"]>
  (<["oauth_timestamp" := "timestamp"]> (<["oauth_consumer_key" := "abc123"]>
  (<["oauth_body_hash" := "bodyhash"]>
  (<["oauth_signature_method" := "HMAC-SHA1"]> ∅))))).


(** The six keys of [specParams] in the order the test lists them. *)
Definition specOrder : list string :=
  ["oauth_version"; "oauth_nonce"; "oauth_timestamp"; "oauth_consumer_key";
   "oauth_body_hash"; "oauth_signature_method"].

Definition specBaseString : string :=
  "POST&http%3A%2F%2Fexample.com&oauth_body_hash%3Dbodyhash%26oauth_consumer_key%3Dabc123%26oauth_nonce%3Drandom%26oauth_signature_method%3DHMAC-SHA1%26oauth_timestamp%3Dtimestamp%26oauth_version%3D1.0".

Definition specSignature : string := "6Te1LTOGEnM6qUYIpinnoVO4jms=".

(** An entropy source that fails, and one that fills the buffer. *)
Definition failingEnv : Env :=
  {| randRead := fun _ => inr "entropy source unavailable";
     nowUnix := 1500000000;
     newRequestErr := fun _ _ => None |}.

Definition workingEnv : Env :=
  {| randRead := fun n => inl (map Z.of_nat (seq 1 n));
     nowUnix := 1500000000;
     newRequestErr := fun _ _ => None |}.

Definition launchParams : gmap string string :=
  <["user_id" := "12346"]> (<["roles" := "Instructor"]>
  (<["lis_person_name_full" := "Unit Test"]> ∅)).

(** The form of the package's test of [ValidateSignature], its signature
    being the one the specification gives for POST. *)
Definition signedSpecForm : gmap string (list string) :=
  valuesOf (<["oauth_signature" := specSignature]> specParams).

(** A launch signed by [SignedFormRequest]. *)
Definition signedLaunch : gmap string string * (option Request * option error) :=
  SignedFormRequest workingEnv "http://example.com" "1000" "qwerty" launchParams.

(** A secret of 66 bytes, and the 19 bytes that, followed by [&], are the
    SHA-1 digest of that secret followed by [&]. *)
Definition longSecret : string :=
  "ssssssssssssssssssssssssssssssssssssssssssssssssssssssssssssssss68".

Definition shortSecret : string :=
  stringOf [1; 107; 60; 225; 12; 159; 168; 140; 95; 161; 163; 250; 30; 49; 23;
            15; 194; 213; 163]%Z.

(** * Properties *)

Example sha1_abc :
  Base64.EncodeToString (SHA1.Sum (bytesOf "abc")) = "qZk+NkcGgWq6PiVxeFDCbJzQ2J0=".
Proof. vm_compute. reflexivity. Qed.

Example sig_post :
  signRequest (NewSigner "POST" "http://example.com" "" "secret" "" ∅) specParams
  = "6Te1LTOGEnM6qUYIpinnoVO4jms=".
Proof. vm_compute. reflexivity. Qed.

Example sig_empty :
  signRequest (NewSigner "" "http://example.com" "" "secret" "" ∅) specParams
  = "SDIU2dYT9BuwUAfROB9/UX4IA+Y=".
Proof. vm_compute. reflexivity. Qed.

(** ** Strings *)

Lemma str_app_nil_l (s : string) : EmptyString ++ s = s.
Proof. reflexivity. Qed.

Lemma str_app_cons c (s t : string) : String c s ++ t = String c (s ++ t).
Proof. reflexivity. Qed.

Lemma str_app_nil_r (s : string) : s ++ EmptyString = s.
Proof. induction s as [|c s IH]; [done|]. by rewrite str_app_cons, IH. Qed.

Lemma str_app_assoc (s t u : string) : s ++ (t ++ u) = (s ++ t) ++ u.
Proof. induction s as [|c s IH]; [done|]. by rewrite !str_app_cons, IH. Qed.

(** ** The escaper *)

Lemma escapeLoop_acc s t : escapeLoop s t = t ++ escape s.
Proof.
  unfold escape. revert t.
  induction s as [|c s IH]; intros t; simpl.
  - by rewrite str_app_nil_r.
  - destruct (isEscapable c); rewrite IH, (IH (_ ++ _));
      by rewrite str_app_assoc.
Qed.

Lemma escape_cons c s :
  escape (String c s) =
  (if isEscapable c then
     String "%" (String (hexAt (Z.shiftr (byteVal c) 4))
                   (String (hexAt (Z.land (byteVal c) 15)) EmptyString))
   else String c EmptyString) ++ escape s.
Proof.
  unfold escape at 1. simpl.
  destruct (isEscapable c); by rewrite escapeLoop_acc.
Qed.

Lemma isEscapable_unreserved c : isEscapable c = negb (unreserved c).
Proof. by destruct c as [[] [] [] [] [] [] [] []]; vm_compute. Qed.

Lemma hexAt_high c : hexAt (Z.shiftr (byteVal c) 4) = upperHex (byteVal c / 16).
Proof. by destruct c as [[] [] [] [] [] [] [] []]; vm_compute. Qed.

Lemma hexAt_low c : hexAt (Z.land (byteVal c) 15) = upperHex (byteVal c mod 16).
Proof. by destruct c as [[] [] [] [] [] [] [] []]; vm_compute. Qed.

Lemma escape_encode s : escape s = encode s.
Proof.
  induction s as [|c s IH]; [done|].
  rewrite escape_cons, IH. simpl. unfold encodeByte.
  rewrite isEscapable_unreserved, hexAt_high, hexAt_low.
  by destruct (unreserved c).
Qed.

(** C5. [escape] is a total function that copies each unreserved byte
    (letters, digits, [-], [.], [_], [~]) and writes every other byte as
    [%] and the two uppercase hexadecimal digits of its value, one triplet
    per input byte; the four literal vectors of the specification hold. *)
Theorem escape_spec :
  (forall s, escape s = encode s)
  /\ (forall c, unreserved c = true -> encodeByte c = String c EmptyString)
  /\ (forall c, unreserved c = false ->
        encodeByte c =
        String "%" (String (upperHex (byteVal c / 16))
                      (String (upperHex (byteVal c mod 16)) EmptyString)))
  /\ escape "&" = "%26" /\ escape " " = "%20" /\ escape "@" = "%40"
  /\ escape "abcd1234" = "abcd1234".
Proof.
  split; [exact escape_encode|].
  split; [by intros c Hc; unfold encodeByte; rewrite Hc|].
  split; [by intros c Hc; unfold encodeByte; rewrite Hc|].
  by vm_compute.
Qed.

Lemma escape_unreserved s : allUnreserved s = true -> escape s = s.
Proof.
  induction s as [|c s IH]; [done|].
  change (allUnreserved (String c s)) with (unreserved c && allUnreserved s).
  intros [Hc Hs]%andb_prop. rewrite escape_cons, isEscapable_unreserved, Hc.
  simpl. by rewrite str_app_cons, str_app_nil_l, IH.
Qed.

(** C9. On a string made of unreserved bytes only, escaping twice gives
    the string back. *)
Theorem escape_idempotent s :
  allUnreserved s = true -> escape (escape s) = s.
Proof.
  intros Hs. rewrite (escape_unreserved s Hs). exact (escape_unreserved s Hs).
Qed.

Lemma escape_idempotent_witness :
  allUnreserved "abcd1234-._~XYZ" = true
  /\ escape (escape "abcd1234-._~XYZ") = "abcd1234-._~XYZ".
Proof.
  split; [reflexivity|]. apply (escape_idempotent "abcd1234-._~XYZ"). reflexivity.
Defined.

(** ** The canonicalizer *)

Lemma leb_lexLe s t : String.leb s t = lexLe s t.
Proof.
  unfold String.leb. revert t.
  induction s as [|a s IH]; intros [|b t]; simpl; try done.
  unfold Ascii.compare, byteVal.
  destruct (N.compare_spec (N_of_ascii a) (N_of_ascii b)) as [Heq|Hlt|Hgt].
  - rewrite Heq, Z.ltb_irrefl. apply IH.
  - by rewrite (proj2 (Z.ltb_lt _ _)) by lia.
  - rewrite (proj2 (Z.ltb_ge _ _)) by lia.
    by rewrite (proj2 (Z.ltb_lt _ _)) by lia.
Qed.

Lemma range_append (order acc : list string) :
  fold_left (fun keys k => (keys ++ [k])%list) order acc = (acc ++ order)%list.
Proof.
  revert acc. induction order as [|k order IH]; intros acc; simpl.
  - by rewrite app_nil_r.
  - by rewrite IH, <- app_assoc.
Qed.

Lemma sortKeysIn_sorted order : Sorted String.le (sortKeysIn order).
Proof. apply (Sorted_merge_sort String.le). Qed.

Lemma sortKeysIn_perm order : sortKeysIn order ≡ₚ order.
Proof.
  unfold sortKeysIn, sortStrings. rewrite range_append.
  apply (merge_sort_Permutation String.le).
Qed.

(** The visiting order of [range] does not show in the sorted keys. *)
Lemma sortKeysIn_order order1 order2 :
  order1 ≡ₚ order2 -> sortKeysIn order1 = sortKeysIn order2.
Proof.
  intros Hp. apply (Sorted_unique String.le); try apply sortKeysIn_sorted.
  by rewrite !sortKeysIn_perm.
Qed.

(** What the loop appends once it is past its first pair. *)
Fixpoint joinTail (params : gmap string string) (keys : list string) : string :=
  match keys with
  | [] => EmptyString
  | key :: keys' =>
      "&" ++ (escape key ++ "=" ++ escape (mapGet params key))
          ++ joinTail params keys'
  end.

Lemma escapeParamsLoop_tail params i keys acc :
  (0 < i)%nat -> escapeParamsLoop params i keys acc = acc ++ joinTail params keys.
Proof.
  revert i acc. induction keys as [|key keys IH]; intros i acc Hi; simpl.
  - by rewrite str_app_nil_r.
  - rewrite (proj2 (Nat.ltb_lt 0 i) Hi), IH by lia.
    by rewrite !str_app_assoc.
Qed.

Lemma concat_joinTail params key keys :
  String.concat "&" (map (pairOf params) (key :: keys))
  = pairOf params key ++ joinTail params keys.
Proof.
  revert key. induction keys as [|k keys IH]; intros key.
  - simpl. by rewrite str_app_nil_r.
  - change (String.concat "&" (map (pairOf params) (key :: k :: keys)))
      with (pairOf params key
            ++ "&" ++ String.concat "&" (map (pairOf params) (k :: keys))).
    rewrite IH. simpl. unfold pairOf at 2. rewrite <- !escape_encode.
    by rewrite !str_app_assoc.
Qed.

Lemma escapeParamsLoop_canonical params keys :
  escapeParamsLoop params 0 keys EmptyString = canonicalize keys params.
Proof.
  unfold canonicalize. destruct keys as [|key keys]; [done|].
  rewrite concat_joinTail. simpl.
  rewrite escapeParamsLoop_tail by lia.
  unfold pairOf. by rewrite <- !escape_encode.
Qed.

Lemma sorted_lexLe keys :
  Sorted String.le keys -> Sorted (fun a b => lexLe a b = true) keys.
Proof.
  induction 1 as [|k keys Hs IH Hhd]; constructor; [done|].
  destruct Hhd as [|k' keys' Hle]; constructor.
  rewrite <- leb_lexLe. by apply Is_true_true.
Qed.

(** C6. Whatever order [range] visits the keys in, the canonical parameter
    string lists each key of the mapping once, in ascending byte-wise
    lexicographic order, each pair written as the escaped key, [=] and the
    escaped value, the pairs joined with [&]. *)
Theorem escapeParams_canonical (params : gmap string string) (order : list string) :
  order ≡ₚ rangeKeys params ->
  exists keys,
    Sorted (fun a b => lexLe a b = true) keys
    /\ keys ≡ₚ rangeKeys params
    /\ NoDup keys
    /\ (forall k, k ∈ keys <-> is_Some (params !! k))
    /\ escapeParamsIn order params = canonicalize keys params
    /\ escapeParams params = canonicalize keys params.
Proof.
  intros Hp. exists (sortKeysIn order).
  assert (Hk : sortKeysIn order ≡ₚ rangeKeys params)
    by (by rewrite sortKeysIn_perm).
  split.
  { apply sorted_lexLe, sortKeysIn_sorted. }
  split; [done|].
  split; [rewrite Hk; apply NoDup_fst_map_to_list|].
  split.
  { intros k. rewrite Hk. unfold rangeKeys.
    rewrite list_elem_of_fmap. split.
    - intros [[k' v] [-> Hin%elem_of_map_to_list]]. by exists v.
    - intros [v Hv]. exists (k, v). by rewrite elem_of_map_to_list. }
  split; [apply escapeParamsLoop_canonical|].
  unfold escapeParams, escapeParamsIn.
  rewrite <- (sortKeysIn_order order (rangeKeys params) Hp).
  apply escapeParamsLoop_canonical.
Qed.

Lemma escapeParams_sorted params :
  escapeParams params = canonicalize (sortKeys params) params.
Proof. apply escapeParamsLoop_canonical. Qed.

Lemma escapeParams_canonical_witness :
  specOrder ≡ₚ rangeKeys specParams
  /\ exists keys,
       Sorted (fun a b => lexLe a b = true) keys
       /\ keys ≡ₚ rangeKeys specParams
       /\ NoDup keys
       /\ (forall k, k ∈ keys <-> is_Some (specParams !! k))
       /\ escapeParamsIn specOrder specParams = canonicalize keys specParams
       /\ escapeParams specParams = canonicalize keys specParams.
Proof.
  assert (Hp : specOrder ≡ₚ rangeKeys specParams).
  { apply (bool_decide_unpack _). vm_compute. exact I. }
  split; [exact Hp|]. exact (escapeParams_canonical specParams specOrder Hp).
Defined.

Example escapeParams_specParams :
  escapeParamsIn specOrder specParams
  = "oauth_body_hash=bodyhash&oauth_consumer_key=abc123&oauth_nonce=random&oauth_signature_method=HMAC-SHA1&oauth_timestamp=timestamp&oauth_version=1.0".
Proof. by vm_compute. Qed.

(** ** The base string *)

(** C3. The base string is the method as it is, [&], the escaped URL, [&],
    and the escaping of the canonical parameter string, whose keys and
    values are already escaped; for POST, [http://example.com] and the six
    parameters of the specification it is the literal vector. *)
Theorem createBaseString_spec :
  (forall s params,
     createBaseString s params
     = Method s ++ "&" ++ encode (URL s) ++ "&"
         ++ encode (canonicalize (sortKeys params) params))
  /\ (forall key secret body form,
        createBaseString (NewSigner "POST" "http://example.com" key secret body form)
          specParams
        = specBaseString).
Proof.
  split.
  - intros s params. unfold createBaseString.
    rewrite escapeParams_sorted, !escape_encode.
    by rewrite <- !str_app_assoc.
  - intros key secret body form. by vm_compute.
Qed.

(** ** The signature engine *)

Lemma bytesOf_app s t : bytesOf (s ++ t) = (bytesOf s ++ bytesOf t)%list.
Proof.
  unfold bytesOf. induction s as [|c s IH]; [done|].
  rewrite str_app_cons. simpl. by rewrite IH.
Qed.

(** C4. The signature is base64 of HMAC-SHA1 keyed with the secret
    followed by one [&], over the base string; it is a function of the
    secret and the base string alone; for the secret [secret] and the
    base string of the specification it is the literal vector. *)
Theorem signRequest_spec :
  (forall s params,
     signRequest s params
     = Base64.EncodeToString
         (HMAC.Sum (bytesOf (Secret s) ++ [byteVal "&"])
                   (bytesOf (createBaseString s params))))
  /\ (forall s1 s2 params1 params2,
        Secret s1 = Secret s2 ->
        createBaseString s1 params1 = createBaseString s2 params2 ->
        signRequest s1 params1 = signRequest s2 params2)
  /\ (forall key body form,
        createBaseString (NewSigner "POST" "http://example.com" key "secret" body form)
          specParams = specBaseString
        /\ signRequest (NewSigner "POST" "http://example.com" key "secret" body form)
             specParams = specSignature).
Proof.
  split; [|split].
  - intros s params. unfold signRequest. by rewrite bytesOf_app.
  - intros s1 s2 params1 params2 Hs Hb. unfold signRequest. by rewrite Hs, Hb.
  - intros key body form. split; by vm_compute.
Qed.

(** ** The default parameters and the assemblers *)

Lemma addDefaultOAuthParams_fails env s params msg :
  randRead env 15 = inr msg ->
  addDefaultOAuthParams env s params = (params, Some (ErrRand msg)).
Proof. intros Hr. unfold addDefaultOAuthParams, RandomString. by rewrite Hr. Qed.

Lemma addDefaultOAuthParams_ok env s params b :
  randRead env 15 = inl b ->
  exists params', addDefaultOAuthParams env s params = (params', None).
Proof.
  intros Hr. unfold addDefaultOAuthParams, RandomString. rewrite Hr. eauto.
Qed.

Lemma form_size_lt_1 (form : gmap string string) :
  (size form <? 1)%nat = true <-> form = ∅.
Proof.
  rewrite Nat.ltb_lt, <- map_size_empty_iff. lia.
Qed.

(** The form assembler hands the failure of the entropy source on. *)
Lemma BuildAuthForm_nonce_failure env s msg :
  Form s ≠ ∅ -> randRead env 15 = inr msg ->
  BuildAuthForm env s = (Form s, (EmptyString, Some (ErrRand msg))).
Proof.
  intros Hne Hr. unfold BuildAuthForm.
  destruct (size (Form s) <? 1)%nat eqn:Hsz.
  - by apply form_size_lt_1 in Hsz.
  - by rewrite (addDefaultOAuthParams_fails env s (Form s) msg Hr).
Qed.

(** C8. With an empty [Form], [BuildAuthForm] returns the error
    "No form provided" and no form string; with a non-empty [Form] it never
    returns that error, and returns no error at all when the entropy
    source delivers. *)
Theorem BuildAuthForm_empty_form env s :
  (Form s = ∅ ->
     BuildAuthForm env s = (Form s, (EmptyString, Some ErrNoForm)))
  /\ (Form s ≠ ∅ ->
        snd (snd (BuildAuthForm env s)) ≠ Some ErrNoForm
        /\ (forall b, randRead env 15 = inl b ->
              snd (snd (BuildAuthForm env s)) = None)).
Proof.
  split.
  - intros He. unfold BuildAuthForm.
    by rewrite (proj2 (form_size_lt_1 (Form s)) He).
  - intros Hne. unfold BuildAuthForm.
    destruct (size (Form s) <? 1)%nat eqn:Hsz;
      [by apply form_size_lt_1 in Hsz|].
    split.
    + unfold addDefaultOAuthParams, RandomString.
      by destruct (randRead env 15).
    + intros b Hb.
      by destruct (addDefaultOAuthParams_ok env s (Form s) b Hb) as [form ->].
Qed.

Lemma launchParams_nonempty : launchParams ≠ ∅.
Proof. apply insert_non_empty. Qed.

Lemma BuildAuthForm_empty_form_witness :
  BuildAuthForm workingEnv (NewSigner "POST" "http://example.com" "1234" "secret" "" ∅)
    = (∅, (EmptyString, Some ErrNoForm))
  /\ snd (snd (BuildAuthForm failingEnv
                 (NewSigner "POST" "http://example.com" "1234" "secret" "" launchParams)))
       ≠ Some ErrNoForm
  /\ snd (snd (BuildAuthForm workingEnv
                 (NewSigner "POST" "http://example.com" "1234" "secret" "" launchParams)))
       = None.
Proof.
  split; [|split].
  - apply (BuildAuthForm_empty_form workingEnv
             (NewSigner "POST" "http://example.com" "1234" "secret" "" ∅)).
    reflexivity.
  - apply (BuildAuthForm_empty_form failingEnv
             (NewSigner "POST" "http://example.com" "1234" "secret" "" launchParams)).
    exact launchParams_nonempty.
  - eapply (BuildAuthForm_empty_form workingEnv
             (NewSigner "POST" "http://example.com" "1234" "secret" "" launchParams)).
    + exact launchParams_nonempty.
    + reflexivity.
Defined.

(** [BuildAuthHeader] never returns an error. *)
Lemma BuildAuthHeader_no_error env order s :
  snd (BuildAuthHeader env order s) = None.
Proof. reflexivity. Qed.

(** C7, on the code: when the entropy source fails, [RandomString] and
    [BuildAuthForm] return its error, but [BuildAuthHeader] drops it and
    returns a signed header that holds only [oauth_body_hash] and
    [oauth_signature], with a nil error. *)
Theorem BuildAuthHeader_nonce_failure :
  RandomString failingEnv 15
    = (EmptyString, Some (ErrRand "entropy source unavailable"))
  /\ snd (snd (BuildAuthForm failingEnv
                 (NewSigner "POST" "http://example.com" "1234" "abcd" "" launchParams)))
     = Some (ErrRand "entropy source unavailable")
  /\ BuildAuthHeader failingEnv sortKeys
       (NewSigner "POST" "http://example.com" "1234" "abcd" "test body" ∅)
     = ("OAuth realm=" ++ dquote ++ dquote
        ++ ",oauth_body_hash=" ++ dquote ++ "oUDk7%2FiWWeg1t2%2BP732oPglqkf8%3D" ++ dquote
        ++ ",oauth_signature=" ++ dquote ++ "wGvIax%2B0zGij9hsqvTA%2BTU2GUP8%3D" ++ dquote,
        None).
Proof. split; [|split]; by vm_compute. Qed.

(** ** Digests and signatures have a fixed size *)

Lemma SHA1_Sum_length data : List.length (SHA1.Sum data) = 20%nat.
Proof.
  unfold SHA1.Sum.
  generalize (SHA1.block
                (List.length (data ++ SHA1.padding (Z.of_nat (List.length data))) / 64)
                SHA1.init
                (data ++ SHA1.padding (Z.of_nat (List.length data)))).
  intros d. reflexivity.
Qed.

Lemma HMAC_Sum_length key msg : List.length (HMAC.Sum key msg) = 20%nat.
Proof. unfold HMAC.Sum. apply SHA1_Sum_length. Qed.

Lemma EncodeToString_20 (b : list Z) :
  List.length b = 20%nat -> String.length (Base64.EncodeToString b) = 28%nat.
Proof.
  intros Hb.
  do 20 (destruct b as [|? b]; [discriminate Hb|]).
  destruct b as [|? b]; [reflexivity|discriminate Hb].
Qed.

Lemma signRequest_length s params : String.length (signRequest s params) = 28%nat.
Proof. unfold signRequest. apply EncodeToString_20, HMAC_Sum_length. Qed.

Lemma signRequest_nonempty s params : signRequest s params ≠ EmptyString.
Proof.
  intros He. pose proof (signRequest_length s params) as Hl.
  rewrite He in Hl. discriminate Hl.
Qed.

(** ** The validator *)

Lemma formParams_lookup (form : gmap string (list string)) k :
  formParams form !! k = (fun _ => Get form k) <$> form !! k.
Proof.
  unfold formParams. generalize form at 1 3. intros src.
  apply (map_fold_weak_ind
           (fun r (m : gmap string (list string)) =>
              r !! k = (fun _ => Get src k) <$> m !! k)).
  - by rewrite !lookup_empty.
  - intros i x m r Hi IH. destruct (decide (i = k)) as [->|Hne].
    + by rewrite !lookup_insert_eq.
    + by rewrite !lookup_insert_ne.
Qed.

Lemma mapGet_formParams form k : mapGet (formParams form) k = Get form k.
Proof.
  unfold mapGet. rewrite formParams_lookup. unfold Get.
  by destruct (form !! k).
Qed.

(** What [ValidateSignature] computes: the method of its signer is the
    empty string, the zero value of the field it leaves unset. *)
Lemma ValidateSignature_unfold url form secret :
  ValidateSignature url form secret
  = bool_decide
      (Get form "oauth_signature"
       = signRequest (NewSigner "" url "" secret "" ∅)
           (delete "oauth_signature" (formParams form))).
Proof.
  unfold ValidateSignature. rewrite mapGet_formParams.
  unfold NewSigner. by repeat case_bool_decide.
Qed.

(** C10. A form without the key [oauth_signature] is never accepted: the
    value compared is the empty string, and a recomputed signature is the
    28 characters that base64 makes of a 20-byte digest. *)
Theorem ValidateSignature_missing_signature url form secret :
  form !! "oauth_signature" = None ->
  ValidateSignature url form secret = false
  /\ Get form "oauth_signature" = EmptyString
  /\ (forall s params,
        List.length (HMAC.Sum (bytesOf (Secret s ++ "&"))
                       (bytesOf (createBaseString s params))) = 20%nat
        /\ String.length (signRequest s params) = 28%nat).
Proof.
  intros Hf.
  assert (Hg : Get form "oauth_signature" = EmptyString)
    by (unfold Get; by rewrite Hf).
  split; [|split; [done|]].
  - rewrite ValidateSignature_unfold, Hg.
    apply bool_decide_eq_false. intros He.
    by apply (signRequest_nonempty _ _ (eq_sym He)).
  - intros s params. split; [apply HMAC_Sum_length|apply signRequest_length].
Qed.

Lemma ValidateSignature_missing_signature_witness :
  valuesOf launchParams !! "oauth_signature" = None
  /\ ValidateSignature "http://example.com" (valuesOf launchParams) "secret" = false.
Proof.
  assert (Hf : valuesOf launchParams !! "oauth_signature" = None) by (by vm_compute).
  split; [exact Hf|].
  exact (proj1 (ValidateSignature_missing_signature
                  "http://example.com" (valuesOf launchParams) "secret" Hf)).
Defined.

Lemma valuesOf_lookup (params : gmap string string) k :
  valuesOf params !! k = (fun v => [v]) <$> params !! k.
Proof.
  revert k. unfold valuesOf.
  apply (map_fold_weak_ind
           (fun (r : gmap string (list string)) (m : gmap string string) =>
              forall k, r !! k = (fun v => [v]) <$> m !! k)).
  - intros k. by rewrite !lookup_empty.
  - intros i x m r Hi IH k. unfold Add. rewrite (IH i), Hi.
    change (default [] ((fun v : string => [v]) <$> None) ++ [x])%list with [x].
    destruct (decide (i = k)) as [->|Hne].
    + by rewrite !lookup_insert_eq.
    + rewrite !lookup_insert_ne by done. apply IH.
Qed.

Lemma Get_valuesOf params k : Get (valuesOf params) k = mapGet params k.
Proof.
  unfold Get, mapGet. rewrite valuesOf_lookup. by destruct (params !! k).
Qed.

Lemma formParams_valuesOf params : formParams (valuesOf params) = params.
Proof.
  apply map_eq. intros k.
  rewrite formParams_lookup, Get_valuesOf, valuesOf_lookup. unfold mapGet.
  by destruct (params !! k).
Qed.

(** The signature depends on the signer through its method, URL and secret. *)
Lemma signRequest_fields s1 s2 params :
  Method s1 = Method s2 -> URL s1 = URL s2 -> Secret s1 = Secret s2 ->
  signRequest s1 params = signRequest s2 params.
Proof.
  intros Hm Hu Hs. unfold signRequest, createBaseString. by rewrite Hm, Hu, Hs.
Qed.

(** A form signed by a signer whose method is left unset, as the package's
    test of [ValidateSignature] signs it, is accepted with the same secret. *)
Lemma ValidateSignature_unset_method env url key secret params form body :
  params !! "oauth_signature" = None ->
  BuildAuthForm env (NewSigner "" url key secret "" params) = (form, (body, None)) ->
  ValidateSignature url (valuesOf form) secret = true.
Proof.
  intros Hsig. unfold BuildAuthForm.
  change (Form (NewSigner "" url key secret "" params)) with params.
  destruct (size params <? 1)%nat; [intros [=]|].
  unfold addDefaultOAuthParams.
  destruct (RandomString env 15) as [n [err|]]; [intros [=]|].
  intros [= <- _].
  rewrite ValidateSignature_unfold, formParams_valuesOf, Get_valuesOf.
  unfold mapGet. rewrite lookup_insert_eq.
  change (default EmptyString (Some ?x)) with x.
  rewrite delete_insert_id by (by rewrite !lookup_insert_ne).
  apply bool_decide_eq_true. by apply signRequest_fields.
Qed.

(** C2, on the code: the form carries the signature that the specification
    gives for POST over its other six parameters, and [ValidateSignature]
    rejects it, because it signs with the empty method and obtains another
    signature. *)
Theorem ValidateSignature_rejects_POST_signature :
  Get signedSpecForm "oauth_signature" = specSignature
  /\ delete "oauth_signature" (formParams signedSpecForm) = specParams
  /\ signRequest (NewSigner "POST" "http://example.com" "" "secret" "" ∅) specParams
     = specSignature
  /\ signRequest (NewSigner "" "http://example.com" "" "secret" "" ∅) specParams
     = "SDIU2dYT9BuwUAfROB9/UX4IA+Y="
  /\ ValidateSignature "http://example.com" signedSpecForm "secret" = false.
Proof.
  assert (Hd : delete "oauth_signature" (formParams signedSpecForm) = specParams).
  { unfold signedSpecForm. rewrite formParams_valuesOf.
    apply delete_insert_id. vm_compute; reflexivity. }
  split; [vm_compute; reflexivity|].
  split; [exact Hd|].
  split; [vm_compute; reflexivity|].
  split; [vm_compute; reflexivity|].
  rewrite ValidateSignature_unfold, Hd. vm_compute; reflexivity.
Qed.

(** C1, on the code: [SignedFormRequest] signs a launch with the method
    POST and returns a request and no error; the signed parameters, passed
    to [ValidateSignature] with the same URL and the same secret, are
    rejected. *)
Theorem SignedFormRequest_not_validated :
  snd (snd signedLaunch) = None
  /\ reqBody <$> fst (snd signedLaunch) = Some (escapeParams (fst signedLaunch))
  /\ mapGet (fst signedLaunch) "oauth_signature"
     = signRequest (NewSigner "POST" "http://example.com" "1000" "qwerty" "" ∅)
         (delete "oauth_signature" (fst signedLaunch))
  /\ ValidateSignature "http://example.com" (valuesOf (fst signedLaunch)) "qwerty"
     = false.
Proof.
  split; [vm_compute; reflexivity|].
  split; [vm_compute; reflexivity|].
  split; [vm_compute; reflexivity|].
  vm_compute; reflexivity.
Qed.

(** ** More on the escaper *)

Lemma chars_app (s t : string) :
  list_ascii_of_string (s ++ t)
  = (list_ascii_of_string s ++ list_ascii_of_string t)%list.
Proof. induction s as [|c s IH]; [done|]. rewrite str_app_cons. simpl. by rewrite IH. Qed.

Lemma str_length_app (s t : string) :
  String.length (s ++ t) = (String.length s + String.length t)%nat.
Proof. induction s as [|c s IH]; [done|]. rewrite str_app_cons. simpl. by rewrite IH. Qed.

Lemma hexAt_unreserved c :
  unreserved (hexAt (Z.shiftr (byteVal c) 4)) = true
  /\ unreserved (hexAt (Z.land (byteVal c) 15)) = true.
Proof. by destruct c as [[] [] [] [] [] [] [] []]; vm_compute. Qed.

Lemma escape_chars s c :
  c ∈ list_ascii_of_string (escape s) -> unreserved c = true \/ c = "%"%char.
Proof.
  induction s as [|a s IH]; [by intros ?%elem_of_nil|].
  rewrite escape_cons, chars_app, elem_of_app.
  intros [Hc|Hc]; [|by apply IH].
  destruct (hexAt_unreserved a) as [Hh Hl].
  destruct (isEscapable a) eqn:Ha; simpl in Hc.
  - apply elem_of_cons in Hc as [->|Hc]; [by right|].
    apply elem_of_cons in Hc as [->|Hc]; [by left|].
    apply elem_of_cons in Hc as [->|Hc]; [by left|].
    by apply elem_of_nil in Hc.
  - apply elem_of_cons in Hc as [->|Hc]; [|by apply elem_of_nil in Hc].
    left. rewrite isEscapable_unreserved in Ha. by destruct (unreserved a).
Qed.

(** X1. The output of [escape] holds unreserved bytes and [%] only: no
    [&], [=], [+], [/], space or quote survives escaping. *)
Theorem escape_alphabet s c :
  c ∈ list_ascii_of_string (escape s) ->
  (unreserved c = true \/ c = "%"%char)
  /\ c ≠ "&"%char /\ c ≠ "="%char /\ c ≠ "+"%char /\ c ≠ "/"%char
  /\ c ≠ " "%char /\ c ≠ ascii_of_nat 34.
Proof.
  intros Hc. pose proof (escape_chars s c Hc) as Hu. split; [done|].
  repeat split; intros ->; by destruct Hu.
Qed.

Lemma escape_alphabet_witness :
  "%"%char ∈ list_ascii_of_string (escape "a&b")
  /\ "%"%char ≠ "&"%char.
Proof.
  assert (H : "%"%char ∈ list_ascii_of_string (escape "a&b")).
  { change (escape "a&b") with "a%26b". cbn [list_ascii_of_string].
    apply elem_of_cons. right. apply elem_of_cons. by left. }
  split; [exact H|]. exact (proj1 (proj2 (escape_alphabet "a&b" "%"%char H))).
Defined.

Lemma escapeLoop_app s t acc :
  escapeLoop (s ++ t) acc = escapeLoop t (escapeLoop s acc).
Proof.
  revert acc. induction s as [|c s IH]; intros acc; [done|].
  rewrite str_app_cons. simpl. by destruct (isEscapable c).
Qed.

Lemma escape_app_eq s t : escape (s ++ t) = escape s ++ escape t.
Proof.
  unfold escape at 1. rewrite escapeLoop_app.
  fold (escape s). apply escapeLoop_acc.
Qed.

(** X2. Escaping a concatenation is concatenating the escapings. *)
Theorem escape_app s t : escape (s ++ t) = escape s ++ escape t.
Proof. apply escape_app_eq. Qed.

Lemma unescape_byte c :
  byteChr (16 * unhex (hexAt (Z.shiftr (byteVal c) 4))
           + unhex (hexAt (Z.land (byteVal c) 15))) = c.
Proof. by destruct c as [[] [] [] [] [] [] [] []]; vm_compute. Qed.

Lemma unreserved_not_percent c : isEscapable c = false -> isPercent c = false.
Proof. by destruct c as [[] [] [] [] [] [] [] []]; vm_compute. Qed.

Lemma unescape_escape s : unescape (escape s) = s.
Proof.
  induction s as [|c s IH]; [done|].
  rewrite escape_cons. destruct (isEscapable c) eqn:Hc.
  - rewrite !str_app_cons, str_app_nil_l.
    change (unescape (String "%" (String ?h (String ?l ?r))))
      with (String (byteChr (16 * unhex h + unhex l)) (unescape r)).
    by rewrite unescape_byte, IH.
  - rewrite str_app_cons, str_app_nil_l.
    cbn [unescape]. by rewrite (unreserved_not_percent c Hc), IH.
Qed.

Lemma escape_inj s t : escape s = escape t -> s = t.
Proof.
  intros He. rewrite <- (unescape_escape s), <- (unescape_escape t).
  by rewrite He.
Qed.

(** X3. [escape] is injective: two strings with the same escaping are the
    same string. *)
Theorem escape_injective s t : escape s = escape t -> s = t.
Proof. apply escape_inj. Qed.

Lemma escape_injective_witness :
  escape "a b" = escape (String "a" (String " " (String "b" EmptyString)))
  /\ "a b" = String "a" (String " " (String "b" EmptyString)).
Proof.
  split; [reflexivity|].
  apply (escape_injective "a b" (String "a" (String " " (String "b" EmptyString)))).
  reflexivity.
Defined.

(** X4. The output of [escape] has the length of the input plus two for
    every byte that is rewritten, so at least the length of the input
    and at most the [3*len(s)] that the function reserves for it. *)
Theorem escape_length s :
  String.length (escape s) = (String.length s + 2 * escapableCount s)%nat
  /\ (String.length s <= String.length (escape s))%nat
  /\ (String.length (escape s) <= 3 * String.length s)%nat.
Proof.
  assert (He : String.length (escape s) = (String.length s + 2 * escapableCount s)%nat
               /\ (escapableCount s <= String.length s)%nat).
  { induction s as [|c s [IH1 IH2]]; [done|].
    rewrite escape_cons, str_length_app, IH1. unfold escapableCount in *.
    cbn [list_ascii_of_string String.length]. rewrite filter_cons.
    destruct (isEscapable c) eqn:Hc.
    - rewrite decide_True by done. cbn [List.length String.length]. lia.
    - rewrite decide_False by done. cbn [List.length String.length]. lia. }
  lia.
Qed.

(** ** The canonical string and the base string determine their input *)

Lemma str_split_l (c : ascii) (a a' b b' : string) :
  c ∉ list_ascii_of_string a -> c ∉ list_ascii_of_string a' ->
  a ++ String c b = a' ++ String c b' -> a = a' /\ b = b'.
Proof.
  revert a'. induction a as [|x a IH]; intros [|y a'] Ha Ha' He.
  - rewrite !str_app_nil_l in He. by injection He.
  - rewrite str_app_nil_l, str_app_cons in He. injection He as -> _.
    exfalso. apply Ha'. cbn [list_ascii_of_string]. apply elem_of_cons. by left.
  - rewrite str_app_nil_l, str_app_cons in He. injection He as -> _.
    exfalso. apply Ha. cbn [list_ascii_of_string]. apply elem_of_cons. by left.
  - rewrite !str_app_cons in He. injection He as -> He.
    cbn [list_ascii_of_string] in Ha, Ha'. rewrite not_elem_of_cons in Ha, Ha'.
    destruct (IH a' (proj2 Ha) (proj2 Ha') He) as [-> ->]. done.
Qed.

Lemma str_split_r (c : ascii) (a a' b b' : string) :
  c ∉ list_ascii_of_string b -> c ∉ list_ascii_of_string b' ->
  a ++ String c b = a' ++ String c b' -> a = a' /\ b = b'.
Proof.
  revert a'. induction a as [|x a IH]; intros [|y a'] Hb Hb' He.
  - rewrite !str_app_nil_l in He. by injection He.
  - rewrite str_app_nil_l, str_app_cons in He. injection He as _ ->.
    exfalso. apply Hb. rewrite chars_app, elem_of_app. right.
    cbn [list_ascii_of_string]. apply elem_of_cons. by left.
  - rewrite str_app_nil_l, str_app_cons in He. injection He as _ <-.
    exfalso. apply Hb'. rewrite chars_app, elem_of_app. right.
    cbn [list_ascii_of_string]. apply elem_of_cons. by left.
  - rewrite !str_app_cons in He. injection He as -> He.
    destruct (IH a' Hb Hb' He) as [-> ->]. done.
Qed.

Lemma escape_no_amp s : ("&"%char) ∉ list_ascii_of_string (escape s).
Proof. intros Hc. by destruct (escape_chars s _ Hc). Qed.

Lemma escape_no_eq s : ("="%char) ∉ list_ascii_of_string (escape s).
Proof. intros Hc. by destruct (escape_chars s _ Hc). Qed.

Lemma pairOf_escape params key :
  pairOf params key = escape key ++ String "=" (escape (mapGet params key)).
Proof. unfold pairOf. by rewrite !escape_encode. Qed.

Lemma pairOf_inj p1 p2 k1 k2 :
  pairOf p1 k1 = pairOf p2 k2 -> k1 = k2 /\ mapGet p1 k1 = mapGet p2 k2.
Proof.
  rewrite !pairOf_escape. intros He.
  apply str_split_l in He as [Hk Hv]; try apply escape_no_eq.
  split; by apply escape_inj.
Qed.

Lemma pairOf_no_amp params key :
  (("&"%char) ∉ list_ascii_of_string (pairOf params key))
  /\ pairOf params key ≠ EmptyString.
Proof.
  rewrite pairOf_escape. split.
  - rewrite chars_app, elem_of_app. cbn [list_ascii_of_string].
    rewrite elem_of_cons. intros [H|[H|H]]; [|done|]; by apply escape_no_amp in H.
  - intros He. apply (f_equal String.length) in He.
    rewrite str_length_app in He. cbn [String.length] in He. lia.
Qed.

Lemma concat_amp_cons x y l :
  String.concat "&" (x :: y :: l) = x ++ String "&" (String.concat "&" (y :: l)).
Proof. reflexivity. Qed.

Lemma str_app_empty (s t : string) : s ++ t = EmptyString -> s = EmptyString.
Proof. destruct s; [done|]. rewrite str_app_cons. discriminate. Qed.

Lemma amp_in_app x r : ("&"%char) ∈ list_ascii_of_string (x ++ String "&" r).
Proof.
  rewrite chars_app, elem_of_app. right. cbn [list_ascii_of_string].
  apply elem_of_cons. by left.
Qed.

Lemma concat_amp_inj (l1 l2 : list string) :
  Forall (fun x => (("&"%char) ∉ list_ascii_of_string x) /\ x ≠ EmptyString) l1 ->
  Forall (fun x => (("&"%char) ∉ list_ascii_of_string x) /\ x ≠ EmptyString) l2 ->
  String.concat "&" l1 = String.concat "&" l2 -> l1 = l2.
Proof.
  revert l2. induction l1 as [|x l1 IH]; intros [|y l2] H1 H2 He; [done| | |].
  - apply Forall_cons in H2 as [[_ Hy] _]. exfalso. apply Hy.
    destruct l2 as [|y' l2]; [done|].
    rewrite concat_amp_cons in He. symmetry in He. by apply str_app_empty in He.
  - apply Forall_cons in H1 as [[_ Hx] _]. exfalso. apply Hx.
    destruct l1 as [|x' l1]; [done|].
    rewrite concat_amp_cons in He. by apply str_app_empty in He.
  - apply Forall_cons in H1 as [[Hx _] H1]. apply Forall_cons in H2 as [[Hy _] H2].
    destruct l1 as [|x' l1], l2 as [|y' l2].
    + simpl in He. by rewrite He.
    + rewrite concat_amp_cons in He. simpl in He. exfalso. apply Hx.
      rewrite He. apply amp_in_app.
    + rewrite concat_amp_cons in He. simpl in He. exfalso. apply Hy.
      rewrite <- He. apply amp_in_app.
    + rewrite !concat_amp_cons in He.
      apply str_split_l in He as [-> He]; [|done..].
      by rewrite (IH (y' :: l2) H1 H2 He).
Qed.

Lemma map_pairOf_inj p1 p2 keys1 keys2 :
  map (pairOf p1) keys1 = map (pairOf p2) keys2 ->
  keys1 = keys2 /\ forall k, k ∈ keys1 -> mapGet p1 k = mapGet p2 k.
Proof.
  revert keys2. induction keys1 as [|k1 keys1 IH]; intros [|k2 keys2] He;
    try discriminate He.
  - split; [done|]. by intros k ?%elem_of_nil.
  - cbn [map] in He. injection He as Hp He.
    apply pairOf_inj in Hp as [-> Hv]. destruct (IH keys2 He) as [-> Hall].
    split; [done|]. intros k [->|Hk]%elem_of_cons; [done|by apply Hall].
Qed.

Lemma sortKeys_elem (params : gmap string string) k :
  k ∈ sortKeys params <-> is_Some (params !! k).
Proof.
  unfold sortKeys. rewrite sortKeysIn_perm. unfold rangeKeys.
  rewrite list_elem_of_fmap. split.
  - intros [[k' v] [-> Hin%elem_of_map_to_list]]. by exists v.
  - intros [v Hv]. exists (k, v). by rewrite elem_of_map_to_list.
Qed.

Lemma escapeParams_inj p1 p2 : escapeParams p1 = escapeParams p2 -> p1 = p2.
Proof.
  rewrite !escapeParams_sorted. unfold canonicalize. intros He.
  apply concat_amp_inj in He;
    [|apply Forall_forall; intros x [k [-> _]]%list_elem_of_fmap;
      apply pairOf_no_amp..].
  apply map_pairOf_inj in He as [Hk Hv].
  apply map_eq. intros k.
  pose proof (sortKeys_elem p1 k) as H1. pose proof (sortKeys_elem p2 k) as H2.
  rewrite <- Hk in H2. specialize (Hv k). unfold mapGet in Hv.
  destruct (p1 !! k) as [v1|] eqn:E1, (p2 !! k) as [v2|] eqn:E2.
  - f_equal. apply Hv, H1. by eexists.
  - exfalso. assert (Hs : is_Some (@None string)) by (apply H2, H1; by eexists).
    by destruct Hs.
  - exfalso. assert (Hs : is_Some (@None string)) by (apply H1, H2; by eexists).
    by destruct Hs.
  - done.
Qed.

(** X5. The canonical parameter string determines the parameters: two
    mappings with the same [escapeParams] are the same mapping. *)
Theorem escapeParams_injective (p1 p2 : gmap string string) :
  escapeParams p1 = escapeParams p2 -> p1 = p2.
Proof. apply escapeParams_inj. Qed.

Lemma escapeParams_injective_witness :
  escapeParams specParams = escapeParams (<["oauth_version" := "1.0"]> specParams)
  /\ specParams = <["oauth_version" := "1.0"]> specParams.
Proof.
  assert (He : escapeParams specParams
               = escapeParams (<["oauth_version" := "1.0"]> specParams))
    by (vm_compute; reflexivity).
  split; [exact He|]. exact (escapeParams_injective _ _ He).
Defined.

Lemma createBaseString_shape s params :
  createBaseString s params
  = (Method s ++ String "&" (escape (URL s)))
      ++ String "&" (escape (escapeParams params)).
Proof.
  unfold createBaseString. rewrite <- !str_app_assoc.
  by rewrite !str_app_cons, !str_app_nil_l.
Qed.

(** X6. The base string determines what is signed: two signers and
    parameter mappings with the same base string have the same method, the
    same URL and the same parameters. *)
Theorem createBaseString_injective s1 s2 (p1 p2 : gmap string string) :
  createBaseString s1 p1 = createBaseString s2 p2 ->
  Method s1 = Method s2 /\ URL s1 = URL s2 /\ p1 = p2.
Proof.
  rewrite !createBaseString_shape. intros He.
  apply str_split_r in He as [He Hp]; try apply escape_no_amp.
  apply str_split_r in He as [Hm Hu]; try apply escape_no_amp.
  split; [done|]. split; [by apply escape_inj|].
  by apply escapeParams_inj, escape_inj.
Qed.

Lemma createBaseString_injective_witness :
  createBaseString (NewSigner "POST" "http://example.com" "k1" "s1" "" ∅) specParams
  = createBaseString (NewSigner "POST" "http://example.com" "k2" "s2" "b" specParams)
      specParams
  /\ Method (NewSigner "POST" "http://example.com" "k1" "s1" "" ∅)
     = Method (NewSigner "POST" "http://example.com" "k2" "s2" "b" specParams).
Proof.
  assert (He : createBaseString (NewSigner "POST" "http://example.com" "k1" "s1" "" ∅)
                 specParams
               = createBaseString
                   (NewSigner "POST" "http://example.com" "k2" "s2" "b" specParams)
                   specParams) by reflexivity.
  split; [exact He|]. exact (proj1 (createBaseString_injective _ _ _ _ He)).
Defined.

(** ** The default parameters *)

Ltac lookup_inserts :=
  repeat first [rewrite lookup_insert_eq | rewrite lookup_insert_ne by done].

Lemma addDefaultOAuthParams_lookup env s (params : gmap string string) b :
  randRead env 15 = inl b ->
  exists params',
    addDefaultOAuthParams env s params = (params', None)
    /\ params' !! "oauth_version" = Some "1.0"
    /\ params' !! "oauth_nonce" = Some (Base64.EncodeToString b)
    /\ params' !! "oauth_timestamp" = Some (FormatInt10 (nowUnix env))
    /\ params' !! "oauth_consumer_key" = Some (Key s)
    /\ params' !! "oauth_signature_method" = Some "HMAC-SHA1"
    /\ (forall k, k ∉ defaultKeys -> params' !! k = params !! k)
    /\ params' !! "oauth_signature" = params !! "oauth_signature"
    /\ params' !! "oauth_body_hash" = params !! "oauth_body_hash".
Proof.
  intros Hr. unfold addDefaultOAuthParams, RandomString. rewrite Hr.
  eexists. split; [reflexivity|].
  repeat split; try (by lookup_inserts).
  intros k Hk. unfold defaultKeys in Hk. rewrite !not_elem_of_cons in Hk.
  destruct Hk as (?&?&?&?&?&_). by lookup_inserts.
Qed.

(** X7. When the entropy source delivers, [addDefaultOAuthParams] sets
    its five keys, replacing what the caller had stored under them, and
    leaves every other key as it was; it writes neither [oauth_signature]
    nor [oauth_body_hash]. *)
Theorem addDefaultOAuthParams_sets env s (params : gmap string string) b :
  randRead env 15 = inl b ->
  exists params',
    addDefaultOAuthParams env s params = (params', None)
    /\ params' !! "oauth_version" = Some "1.0"
    /\ params' !! "oauth_nonce" = Some (Base64.EncodeToString b)
    /\ params' !! "oauth_timestamp" = Some (FormatInt10 (nowUnix env))
    /\ params' !! "oauth_consumer_key" = Some (Key s)
    /\ params' !! "oauth_signature_method" = Some "HMAC-SHA1"
    /\ (forall k, k ∉ defaultKeys -> params' !! k = params !! k)
    /\ params' !! "oauth_signature" = params !! "oauth_signature"
    /\ params' !! "oauth_body_hash" = params !! "oauth_body_hash".
Proof. apply addDefaultOAuthParams_lookup. Qed.

Lemma addDefaultOAuthParams_sets_witness :
  exists params',
    addDefaultOAuthParams workingEnv
      (NewSigner "POST" "http://example.com" "1000" "qwerty" "" ∅)
      (<["oauth_nonce" := "nonce"]> launchParams) = (params', None)
    /\ params' !! "oauth_nonce" = Some "AQIDBAUGBwgJCgsMDQ4P"
    /\ params' !! "user_id" = Some "12346".
Proof.
  destruct (addDefaultOAuthParams_sets workingEnv
              (NewSigner "POST" "http://example.com" "1000" "qwerty" "" ∅)
              (<["oauth_nonce" := "nonce"]> launchParams)
              (map Z.of_nat (seq 1 15)) eq_refl)
    as (params' & He & _ & Hn & _ & _ & _ & Hk & _).
  exists params'. split; [exact He|]. split; [exact Hn|].
  rewrite Hk; [vm_compute; reflexivity|].
  unfold defaultKeys. rewrite !not_elem_of_cons. repeat split; try done.
  apply not_elem_of_nil.
Defined.

(** ** The nonce and the body hash *)

Lemma EncodeToString_length_le n : forall b : list Z,
  (List.length b <= n)%nat ->
  String.length (Base64.EncodeToString b) = (4 * ((List.length b + 2) / 3))%nat.
Proof.
  induction n as [|n IH]; intros b Hn.
  - destruct b; [reflexivity|simpl in Hn; lia].
  - destruct b as [|x [|y [|z rest]]]; try reflexivity.
    cbn [Base64.EncodeToString String.length List.length] in *.
    rewrite IH by lia.
    replace (S (S (S (List.length rest))) + 2)%nat
      with (List.length rest + 2 + 1 * 3)%nat by lia.
    rewrite Nat.div_add by lia. lia.
Qed.

Lemma EncodeToString_length (b : list Z) :
  String.length (Base64.EncodeToString b) = (4 * ((List.length b + 2) / 3))%nat.
Proof. by apply (EncodeToString_length_le (List.length b)). Qed.

(** X8. [RandomString(n)] returns the base64 text of the [n] bytes read,
    four characters for every three bytes or part of three, with a nil
    error; the nonce of 15 bytes has 20 characters. *)
Theorem RandomString_length env n (b : list Z) :
  randRead env n = inl b -> List.length b = n ->
  RandomString env n = (Base64.EncodeToString b, None)
  /\ String.length (fst (RandomString env n)) = (4 * ((n + 2) / 3))%nat
  /\ (n = 15%nat -> String.length (fst (RandomString env n)) = 20%nat).
Proof.
  intros Hr Hn. unfold RandomString. rewrite Hr. cbn [fst].
  rewrite EncodeToString_length, Hn. split; [done|]. split; [done|].
  by intros ->.
Qed.

Lemma RandomString_length_witness :
  RandomString workingEnv 15 = ("AQIDBAUGBwgJCgsMDQ4P", None)
  /\ String.length (fst (RandomString workingEnv 15)) = 20%nat.
Proof.
  destruct (RandomString_length workingEnv 15 (map Z.of_nat (seq 1 15))
              eq_refl eq_refl) as (He & _ & Hl).
  split; [exact He|exact (Hl eq_refl)].
Defined.

(** X9. The body hash is always 28 characters long, the base64 text of a
    20-byte SHA-1 digest, also for the empty body; it depends on the body
    alone. *)
Theorem bodyHash_length s :
  String.length (bodyHash s) = 28%nat
  /\ (forall s', Body s' = Body s -> bodyHash s' = bodyHash s).
Proof.
  split.
  - unfold bodyHash. apply EncodeToString_20, SHA1_Sum_length.
  - intros s' Hb. unfold bodyHash. by rewrite Hb.
Qed.

(** ** The form assembler and the signed form request *)

Lemma BuildAuthForm_success env s b :
  Form s ≠ ∅ -> randRead env 15 = inl b ->
  BuildAuthForm env s
  = (<["oauth_signature" :=
         signRequest s (fst (addDefaultOAuthParams env s (Form s)))]>
       (fst (addDefaultOAuthParams env s (Form s))),
     (escapeParams
        (<["oauth_signature" :=
             signRequest s (fst (addDefaultOAuthParams env s (Form s)))]>
           (fst (addDefaultOAuthParams env s (Form s)))),
      None)).
Proof.
  intros Hne Hr. unfold BuildAuthForm.
  destruct (size (Form s) <? 1)%nat eqn:Hsz; [by apply form_size_lt_1 in Hsz|].
  by destruct (addDefaultOAuthParams_ok env s (Form s) b Hr) as [form ->].
Qed.

(** X10. [SignedFormRequest] writes into the caller's map: once the form
    is non-empty and the nonce is drawn, the map holds the default
    parameters and [oauth_signature], the signature for POST over the map
    with the defaults, and this also when [http.NewRequest] then fails; the
    caller's own keys keep their values. *)
Theorem SignedFormRequest_updates_params env url key secret
    (params : gmap string string) b :
  params ≠ ∅ -> randRead env 15 = inl b ->
  exists defaults,
    addDefaultOAuthParams env (NewSigner "POST" url key secret "" params) params
      = (defaults, None)
    /\ fst (SignedFormRequest env url key secret params)
       = <["oauth_signature" :=
             signRequest (NewSigner "POST" url key secret "" params) defaults]>
           defaults
    /\ (forall k, k ∉ defaultKeys -> k ≠ "oauth_signature" ->
          fst (SignedFormRequest env url key secret params) !! k = params !! k)
    /\ (forall k, k ∈ defaultKeys ->
          is_Some (fst (SignedFormRequest env url key secret params) !! k)).
Proof.
  intros Hne Hr.
  destruct (addDefaultOAuthParams_lookup env (NewSigner "POST" url key secret "" params)
              params b Hr)
    as (defaults & Hd & Hv & Hn & Ht & Hc & Hm & Hk & _).
  exists defaults. split; [exact Hd|].
  assert (Hf : fst (SignedFormRequest env url key secret params)
               = <["oauth_signature" :=
                     signRequest (NewSigner "POST" url key secret "" params) defaults]>
                   defaults).
  { unfold SignedFormRequest.
    rewrite (BuildAuthForm_success env (NewSigner "POST" url key secret "" params) b)
      by done.
    change (Form (NewSigner "POST" url key secret "" params)) with params.
    rewrite Hd. cbn [fst].
    by destruct (newRequestErr env "POST" url). }
  split; [exact Hf|]. rewrite Hf. split.
  - intros k Hk1 Hk2. rewrite lookup_insert_ne by done. by apply Hk.
  - intros k Hk1. unfold defaultKeys in Hk1. rewrite !elem_of_cons in Hk1.
    destruct Hk1 as [->|[->|[->|[->|[->|Hk1]]]]];
      [rewrite lookup_insert_ne by done; eauto..|by apply elem_of_nil in Hk1].
Qed.

Lemma SignedFormRequest_updates_params_witness :
  fst (SignedFormRequest workingEnv "http://example.com" "1000" "qwerty" launchParams)
    !! "user_id" = Some "12346".
Proof.
  destruct (SignedFormRequest_updates_params workingEnv "http://example.com" "1000"
              "qwerty" launchParams (map Z.of_nat (seq 1 15))
              launchParams_nonempty eq_refl)
    as (defaults & _ & _ & Hk & _).
  rewrite Hk; [vm_compute; reflexivity| |done].
  unfold defaultKeys. rewrite !not_elem_of_cons. repeat split; try done.
  apply not_elem_of_nil.
Defined.

(** X11. [SignedFormRequest] returns either a request and a nil error,
    or a nil request and an error that names the cause: an empty form, the
    entropy source, or [http.NewRequest].  The request is a POST to the
    URL whose body is the canonical string of the map after signing, with
    the form content type as its only header. *)
Theorem SignedFormRequest_result env url key secret (params : gmap string string) :
  match snd (SignedFormRequest env url key secret params) with
  | (Some r, None) =>
      params ≠ ∅ /\ newRequestErr env "POST" url = None
      /\ reqMethod r = "POST" /\ reqURL r = url
      /\ reqBody r = escapeParams (fst (SignedFormRequest env url key secret params))
      /\ reqHeader r = [("Content-Type", "application/x-www-form-urlencoded")]
  | (None, Some ErrNoForm) => params = ∅
  | (None, Some (ErrRand msg)) => params ≠ ∅ /\ randRead env 15 = inr msg
  | (None, Some (ErrRequest msg)) =>
      params ≠ ∅ /\ newRequestErr env "POST" url = Some msg
  | _ => False
  end.
Proof.
  unfold SignedFormRequest, BuildAuthForm.
  change (Form (NewSigner "POST" url key secret "" params)) with params.
  destruct (size params <? 1)%nat eqn:Hsz.
  { cbn [snd]. by apply form_size_lt_1. }
  assert (Hne : params ≠ ∅).
  { intros He. apply form_size_lt_1 in He. congruence. }
  unfold addDefaultOAuthParams, RandomString.
  destruct (randRead env 15) as [b|msg] eqn:Hr; [|done].
  destruct (newRequestErr env "POST" url) as [msg|] eqn:Hq; done.
Qed.

(** ** More on the validator *)

Lemma formParams_firstValue (form : gmap string (list string)) :
  formParams form = firstValue <$> form.
Proof.
  apply map_eq. intros k. rewrite formParams_lookup, lookup_fmap.
  unfold Get, firstValue. by destruct (form !! k) as [[|v vs]|].
Qed.

(** X12. [ValidateSignature] accepts a form exactly when the first value
    of [oauth_signature] is the signature, for the empty method, the URL
    and the secret, over the first values of all its other keys; a key
    without a value counts as the empty string. *)
Theorem ValidateSignature_accepts_iff url (form : gmap string (list string)) secret :
  ValidateSignature url form secret = true
  <-> firstValue (default [] (form !! "oauth_signature"))
      = signRequest (NewSigner "" url "" secret "" ∅)
          (delete "oauth_signature" (firstValue <$> form)).
Proof.
  rewrite ValidateSignature_unfold, formParams_firstValue, bool_decide_eq_true.
  unfold Get, firstValue. by destruct (form !! "oauth_signature") as [[|v vs]|].
Qed.

Lemma ValidateSignature_firstValue url (form1 form2 : gmap string (list string)) secret :
  firstValue <$> form1 = firstValue <$> form2 ->
  ValidateSignature url form1 secret = ValidateSignature url form2 secret.
Proof.
  intros He. rewrite !ValidateSignature_unfold, !formParams_firstValue, He.
  assert (Hg : Get form1 "oauth_signature" = Get form2 "oauth_signature").
  { rewrite <- !mapGet_formParams, !formParams_firstValue. by rewrite He. }
  by rewrite Hg.
Qed.

(** X13. Only the first value of a key counts: replacing the further
    values of any key of the form, the signature's included, does not
    change the answer of [ValidateSignature]. *)
Theorem ValidateSignature_first_value_only url (form : gmap string (list string))
    secret k v vs vs' :
  form !! k = Some (v :: vs) ->
  ValidateSignature url (<[k := v :: vs']> form) secret
  = ValidateSignature url form secret.
Proof.
  intros Hk. apply ValidateSignature_firstValue.
  apply map_eq. intros j. rewrite !lookup_fmap.
  destruct (decide (k = j)) as [<-|Hne].
  - by rewrite lookup_insert_eq, Hk.
  - by rewrite lookup_insert_ne.
Qed.

Lemma ValidateSignature_first_value_only_witness :
  signedSpecForm !! "oauth_nonce" = Some ["random"]
  /\ ValidateSignature "http://example.com"
       (<["oauth_nonce" := ["random"; "replayed"]]> signedSpecForm) "secret"
     = ValidateSignature "http://example.com" signedSpecForm "secret".
Proof.
  assert (Hk : signedSpecForm !! "oauth_nonce" = Some ["random"])
    by (vm_compute; reflexivity).
  split; [exact Hk|].
  exact (ValidateSignature_first_value_only "http://example.com" signedSpecForm
           "secret" "oauth_nonce" "random" [] ["replayed"] Hk).
Defined.

(** X14. A form whose first [oauth_signature] value is not 28
    characters long is rejected, whatever the URL and the secret. *)
Theorem ValidateSignature_wrong_length url (form : gmap string (list string)) secret :
  String.length (Get form "oauth_signature") ≠ 28%nat ->
  ValidateSignature url form secret = false.
Proof.
  intros Hl. rewrite ValidateSignature_unfold. apply bool_decide_eq_false.
  intros He. apply Hl. rewrite He. apply signRequest_length.
Qed.

Lemma ValidateSignature_wrong_length_witness :
  ValidateSignature "http://example.com"
    (<["oauth_signature" := ["6Te1LTOGEnM6qUYIpinnoVO4jms"]]> signedSpecForm)
    "secret" = false.
Proof.
  apply (ValidateSignature_wrong_length "http://example.com"
           (<["oauth_signature" := ["6Te1LTOGEnM6qUYIpinnoVO4jms"]]> signedSpecForm)
           "secret").
  unfold Get. rewrite lookup_insert_eq. cbn [String.length]. lia.
Defined.

(** X15. Round trip with the method left unset: a non-empty mapping
    without [oauth_signature], signed by [BuildAuthForm] for a signer whose
    method is the empty string, is accepted by [ValidateSignature] with the
    same URL and secret, for every key, nonce and time. *)
Theorem BuildAuthForm_unset_method_validates env url key secret
    (params : gmap string string) b :
  params ≠ ∅ -> params !! "oauth_signature" = None ->
  randRead env 15 = inl b ->
  snd (snd (BuildAuthForm env (NewSigner "" url key secret "" params))) = None
  /\ ValidateSignature url
       (valuesOf (fst (BuildAuthForm env (NewSigner "" url key secret "" params))))
       secret = true.
Proof.
  intros Hne Hsig Hr.
  pose proof (BuildAuthForm_success env (NewSigner "" url key secret "" params) b
                Hne Hr) as Hb.
  split; [by rewrite Hb|].
  rewrite Hb. cbn [fst].
  eapply (ValidateSignature_unset_method env url key secret params);
    [exact Hsig|exact Hb].
Qed.

Lemma BuildAuthForm_unset_method_validates_witness :
  ValidateSignature "http://example.com"
    (valuesOf (fst (BuildAuthForm workingEnv
                      (NewSigner "" "http://example.com" "1000" "qwerty" ""
                         launchParams))))
    "qwerty" = true.
Proof.
  refine (proj2 (BuildAuthForm_unset_method_validates workingEnv "http://example.com"
                   "1000" "qwerty" launchParams (map Z.of_nat (seq 1 15))
                   launchParams_nonempty _ eq_refl)).
  vm_compute; reflexivity.
Defined.

(** ** The authorization header *)

Lemma header_fold (seg : string -> string) (l : list string) (acc : string) :
  fold_left (fun h k => h ++ seg k) l acc = acc ++ joinAll (map seg l).
Proof.
  revert acc. induction l as [|k l IH]; intros acc; cbn [fold_left map joinAll foldr].
  - by rewrite str_app_nil_r.
  - rewrite IH. fold (joinAll (map seg l)). by rewrite str_app_assoc.
Qed.

Lemma BuildAuthHeader_unfold env order s :
  BuildAuthHeader env order s
  = (("OAuth realm=" ++ dquote ++ dquote)
       ++ joinAll
            (map (headerSegment
                    (<["oauth_signature" :=
                         signRequest s
                           (<["oauth_body_hash" := bodyHash s]>
                              (fst (addDefaultOAuthParams env s ∅)))]>
                       (<["oauth_body_hash" := bodyHash s]>
                          (fst (addDefaultOAuthParams env s ∅)))))
                 (order
                    (<["oauth_signature" :=
                         signRequest s
                           (<["oauth_body_hash" := bodyHash s]>
                              (fst (addDefaultOAuthParams env s ∅)))]>
                       (<["oauth_body_hash" := bodyHash s]>
                          (fst (addDefaultOAuthParams env s ∅)))))),
     None).
Proof.
  unfold BuildAuthHeader. cbv zeta. f_equal.
  apply (header_fold (headerSegment _)).
Qed.

(** X16. With a nonce drawn, the authorization header is
    [OAuth realm=""] followed by one segment [,key="value"], key and
    value escaped, for each key the final [range] visits; the parameters
    are the five defaults, [oauth_body_hash] and [oauth_signature], and the
    signature is the one over the other six. *)
Theorem BuildAuthHeader_params env order s b :
  randRead env 15 = inl b ->
  exists params : gmap string string,
    BuildAuthHeader env order s
    = (("OAuth realm=" ++ dquote ++ dquote)
         ++ joinAll (map (headerSegment params) (order params)), None)
    /\ params !! "oauth_signature"
       = Some (signRequest s (delete "oauth_signature" params))
    /\ params !! "oauth_body_hash" = Some (bodyHash s)
    /\ params !! "oauth_version" = Some "1.0"
    /\ params !! "oauth_nonce" = Some (Base64.EncodeToString b)
    /\ params !! "oauth_timestamp" = Some (FormatInt10 (nowUnix env))
    /\ params !! "oauth_consumer_key" = Some (Key s)
    /\ params !! "oauth_signature_method" = Some "HMAC-SHA1"
    /\ (forall k, k ∉ defaultKeys -> k ≠ "oauth_body_hash" ->
          k ≠ "oauth_signature" -> params !! k = None).
Proof.
  intros Hr.
  destruct (addDefaultOAuthParams_lookup env s ∅ b Hr)
    as (defaults & Hd & Hv & Hn & Ht & Hc & Hm & Hk & Hsig & _).
  rewrite lookup_empty in Hsig.
  eexists. split.
  { rewrite BuildAuthHeader_unfold, Hd. cbn [fst]. reflexivity. }
  split.
  { rewrite lookup_insert_eq, delete_insert_id; [done|].
    by rewrite lookup_insert_ne. }
  repeat split; try (by lookup_inserts).
  intros k Hk1 Hk2 Hk3. rewrite !lookup_insert_ne by done.
  rewrite Hk by done. apply lookup_empty.
Qed.

Lemma BuildAuthHeader_params_witness :
  exists params : gmap string string,
    BuildAuthHeader workingEnv sortKeys
      (NewSigner "POST" "http://example.com" "1234" "abcd" "test body" ∅)
    = (("OAuth realm=" ++ dquote ++ dquote)
         ++ joinAll (map (headerSegment params) (sortKeys params)), None)
    /\ params !! "oauth_consumer_key" = Some "1234".
Proof.
  destruct (BuildAuthHeader_params workingEnv sortKeys
              (NewSigner "POST" "http://example.com" "1234" "abcd" "test body" ∅)
              (map Z.of_nat (seq 1 15)) eq_refl)
    as (params & Hh & _ & _ & _ & _ & _ & Hc & _).
  exists params. split; [exact Hh|exact Hc].
Defined.

(** X17. [BuildAuthHeader] returns a nil error in every case; when the
    entropy source fails, the header it returns carries [oauth_body_hash]
    and [oauth_signature] alone, the signature being the one over the body
    hash. *)
Theorem BuildAuthHeader_without_nonce env order s msg :
  randRead env 15 = inr msg ->
  BuildAuthHeader env order s
  = (("OAuth realm=" ++ dquote ++ dquote)
       ++ joinAll
            (map (headerSegment
                    (<["oauth_signature" :=
                         signRequest s (<["oauth_body_hash" := bodyHash s]> ∅)]>
                       (<["oauth_body_hash" := bodyHash s]> ∅)))
                 (order
                    (<["oauth_signature" :=
                         signRequest s (<["oauth_body_hash" := bodyHash s]> ∅)]>
                       (<["oauth_body_hash" := bodyHash s]> ∅)))),
     None)
  /\ (forall env' order' s', snd (BuildAuthHeader env' order' s') = None).
Proof.
  intros Hr. split; [|done].
  rewrite BuildAuthHeader_unfold.
  by rewrite (addDefaultOAuthParams_fails env s ∅ msg Hr).
Qed.

Lemma BuildAuthHeader_without_nonce_witness :
  snd (BuildAuthHeader failingEnv sortKeys
         (NewSigner "POST" "http://example.com" "1234" "abcd" "test body" ∅))
  = None.
Proof.
  rewrite (proj1 (BuildAuthHeader_without_nonce failingEnv sortKeys
                    (NewSigner "POST" "http://example.com" "1234" "abcd" "test body" ∅)
                    "entropy source unavailable" eq_refl)).
  reflexivity.
Defined.

(** ** The signed body request *)

(** X18. [SignedBodyRequest] never returns an error: it returns the
    request, whose only header is the authorization header and whose
    method is POST when none was given, or it panics, which happens
    exactly when [http.NewRequest] refuses the method and the URL. *)
Theorem SignedBodyRequest_outcome env order method url key secret body :
  match SignedBodyRequest env order method url key secret body with
  | Returned (Some r, None) =>
      newRequestErr env (if decide (method = EmptyString) then "POST" else method) url
        = None
      /\ reqMethod r = (if decide (method = EmptyString) then "POST" else method)
      /\ reqURL r = url /\ reqBody r = body
      /\ reqHeader r =
           [("Authorization",
             fst (BuildAuthHeader env order
                    (NewSigner (if decide (method = EmptyString) then "POST" else method)
                       url key secret body ∅)))]
  | Panicked =>
      newRequestErr env (if decide (method = EmptyString) then "POST" else method) url
        ≠ None
  | _ => False
  end.
Proof.
  unfold SignedBodyRequest. cbv zeta.
  rewrite BuildAuthHeader_unfold. cbn [fst].
  destruct (newRequestErr env _ url) as [msg|] eqn:Hq; [done|].
  cbn [reqMethod reqURL reqBody reqHeader app]. done.
Qed.

(** ** Secrets that sign alike *)

Lemma bytesOf_length s : List.length (bytesOf s) = String.length s.
Proof.
  unfold bytesOf. rewrite length_map.
  induction s as [|c s IH]; [done|]. simpl. by rewrite IH.
Qed.

Lemma HMAC_hashed_key (key msg : list Z) :
  (64 < List.length key)%nat ->
  HMAC.Sum key msg = HMAC.Sum (SHA1.Sum key) msg.
Proof.
  intros Hk. unfold HMAC.Sum, SHA1.BlockSize.
  rewrite (proj2 (Nat.ltb_lt _ _) Hk), SHA1_Sum_length.
  reflexivity.
Qed.

(** X19. A secret of 64 bytes or more is not the only one that validates
    a form: HMAC replaces a key longer than its block by the key's SHA-1
    digest, so when that digest of the secret followed by [&] is itself
    some other secret followed by [&], [ValidateSignature] answers the same
    for both secrets on every URL and form. *)
Theorem ValidateSignature_hashed_secret url (form : gmap string (list string))
    secret secret' :
  (64 <= String.length secret)%nat ->
  bytesOf (secret' ++ "&") = SHA1.Sum (bytesOf (secret ++ "&")) ->
  ValidateSignature url form secret = ValidateSignature url form secret'.
Proof.
  intros Hl Hs. rewrite !ValidateSignature_unfold.
  assert (He : forall params,
             signRequest (NewSigner "" url "" secret "" ∅) params
             = signRequest (NewSigner "" url "" secret' "" ∅) params).
  { intros params. unfold signRequest.
    change (createBaseString (NewSigner "" url "" secret "" ∅) params)
      with (createBaseString (NewSigner "" url "" secret' "" ∅) params).
    cbn [Secret NewSigner]. rewrite Hs.
    rewrite HMAC_hashed_key; [done|].
    rewrite bytesOf_length, str_length_app. cbn [String.length]. lia. }
  by rewrite He.
Qed.

Lemma ValidateSignature_hashed_secret_witness :
  longSecret ≠ shortSecret
  /\ ValidateSignature "http://example.com" signedSpecForm longSecret
     = ValidateSignature "http://example.com" signedSpecForm shortSecret.
Proof.
  split; [discriminate|].
  apply (ValidateSignature_hashed_secret "http://example.com" signedSpecForm
           longSecret shortSecret).
  - vm_compute. lia.
  - vm_compute. reflexivity.
Defined.
